(** * A multi-criteria decision scorer (decision.py)

    Shallow embedding of [decision.py] and proofs about it.

    Numbers.  The attributes of an option, the context signals and every
    score are Python numbers.  They are embedded as rationals [Q], with the
    arithmetic of the source ([+], [-], [*], true division [/], [<=], [==])
    read exactly and numeric equality as [Qeq] ([==]).  This reading follows
    the control flow, the comparisons and the exceptions that depend on them;
    it does not follow the rounding and the overflow of Python floats.  The
    statements below are chosen so that they do not depend on that
    difference; the one place where machine arithmetic decides, the range of
    [normalize], is evaluated on IEEE 754 binary64 numbers in [Binary64].

    Failure.  A Python exception is a value [Raise e] of the type [result].

    Objects.  An [Option] instance carries its object identity [oid]: the
    class defines [__hash__] and no [__eq__], so two instances compare equal
    exactly when they are the same object.

    Effects.  [random.gauss] reads and advances the process-wide generator of
    the [random] module; the functions that draw samples are written in a
    state-and-exception monad over the state of that generator. *)

From Corelib Require PrimFloat.
From Stdlib Require Import QArith Qminmax Lqa Lia.
From stdpp Require Import base option list strings gmap.

Local Open Scope Q_scope.

(** ** Exceptions *)

Inductive exn : Set :=
  | ValueError          (* min() / max() of an empty sequence *)
  | ZeroDivisionError   (* x / 0 *)
  | StatisticsError     (* statistics.mean / variance on too few points *)
  | KeyError.           (* d[k] for an absent key *)

Inductive result (A : Type) : Type :=
  | Ok (a : A)
  | Raise (e : exn).
Arguments Ok {A} a.
Arguments Raise {A} e.

#[global] Instance result_ret : MRet result := fun _ a => Ok a.
#[global] Instance result_bind : MBind result := fun _ _ f r =>
  match r with
  | Ok a => f a
  | Raise e => Raise e
  end.
#[global] Instance result_fmap : FMap result := fun _ _ f r =>
  match r with
  | Ok a => Ok (f a)
  | Raise e => Raise e
  end.

(** A list comprehension whose body may raise: elements are evaluated from
    left to right and the first exception ends the evaluation. *)
Fixpoint comprehension {A B : Type} (f : A -> result B) (l : list A)
  : result (list B) :=
  match l with
  | [] => Ok []
  | x :: l' => y ← f x; ys ← comprehension f l'; Ok (y :: ys)
  end.

(** ** Python arithmetic on numbers *)

(** [a / b]: true division raises on a zero divisor. *)
Definition truediv (a b : Q) : result Q :=
  if Qeq_bool b 0 then Raise ZeroDivisionError else Ok (a / b).

(** [min(l)]: the first smallest element; [ValueError] on an empty list. *)
Definition py_min (l : list Q) : result Q :=
  match l with
  | [] => Raise ValueError
  | x :: l' => Ok (fold_left (fun best y => if Qlt_le_dec y best then y else best) l' x)
  end.

(** [max(l)]: the first greatest element; [ValueError] on an empty list. *)
Definition py_max (l : list Q) : result Q :=
  match l with
  | [] => Raise ValueError
  | x :: l' => Ok (fold_left (fun best y => if Qlt_le_dec best y then y else best) l' x)
  end.

(** [sum(l)] and [len(l)] as a number. *)
Definition py_sum (l : list Q) : Q := fold_left Qplus l 0.
Definition py_len {A : Type} (l : list A) : Q := inject_Z (Z.of_nat (length l)).

(** ** Option class *)

Record Option : Type := mkOption {
  oid : positive;          (* identity of the instance *)
  name : string;
  params : gmap string Q
}.

(** [option.params.get(key, dflt)] *)
Definition params_get (o : Option) (key : string) (dflt : Q) : Q :=
  default dflt (params o !! key).

(** [__hash__]: the hash of the name; two equal names have equal hashes. *)
Definition Option_hash (o : Option) : string := name o.
Definition same_hash (a b : Option) : bool :=
  bool_decide (Option_hash a = Option_hash b).

(** [==] on instances: the class has no [__eq__], so it is [object]'s, which
    compares identities. *)
Definition Option_eq (a b : Option) : bool := Pos.eqb (oid a) (oid b).

(** ** Dictionaries keyed by [Option]

    A [dict] keeps its entries in insertion order.  A key [k] finds the
    entry of [k'] when they are the same object or have equal hashes and
    compare [==]. *)

Definition same_key (k k' : Option) : bool :=
  Pos.eqb (oid k) (oid k') || (same_hash k k' && Option_eq k k').

Definition odict (V : Type) : Type := list (Option * V).

(** [d.get(k)] *)
Fixpoint dict_get {V : Type} (d : odict V) (k : Option) : option V :=
  match d with
  | [] => None
  | (k', v) :: d' => if same_key k k' then Some v else dict_get d' k
  end.

(** [d[k]] *)
Definition dict_getitem {V : Type} (d : odict V) (k : Option) : result V :=
  match dict_get d k with
  | Some v => Ok v
  | None => Raise KeyError
  end.

(** [d[k] = v]: an existing entry keeps its place and its key object and
    takes the new value; a new key goes last. *)
Fixpoint dict_set {V : Type} (d : odict V) (k : Option) (v : V) : odict V :=
  match d with
  | [] => [(k, v)]
  | (k', v') :: d' =>
      if same_key k k' then (k', v) :: d' else (k', v') :: dict_set d' k v
  end.

(** [dict(pairs)] *)
Definition dict_of {V : Type} (pairs : list (Option * V)) : odict V :=
  fold_left (fun d kv => dict_set d kv.1 kv.2) pairs [].

(** [list(d)]: the keys in insertion order. *)
Definition dict_keys {V : Type} (d : odict V) : list Option := d.*1.

(** ** Constraints *)

Definition time_constraint (option : Option) : bool :=
  Qle_bool (params_get option "time_taken" 0) 35.

Definition CONSTRAINTS : list (Option -> bool) := [time_constraint].

(** [all(c(opt) for c in constraints)] *)
Definition all_constraints (constraints : list (Option -> bool)) (opt : Option)
  : bool :=
  forallb (fun c => c opt) constraints.

(** The comprehension of [apply_constraints], over a list of constraints. *)
Definition apply_constraints_with (constraints : list (Option -> bool))
    (options : list Option) : list Option :=
  filter (fun opt => all_constraints constraints opt = true) options.

Definition apply_constraints (options : list Option) : list Option :=
  apply_constraints_with CONSTRAINTS options.

(** ** Criteria *)

Definition time_score (option : Option) : Q := - params_get option "time_taken" 0.
Definition social_score (option : Option) : Q := params_get option "social_value" 0.
Definition novelty_score (option : Option) : Q := params_get option "novelty_meter" 0.
Definition learn_score (option : Option) : Q := params_get option "learn_index" 0.
Definition emotional_score (option : Option) : Q := params_get option "move_heart" 0.

(** The registry is a [dict] with string keys, iterated in insertion order. *)
Definition CRITERIA : list (string * (Option -> Q)) :=
  [ ("time_score", time_score);
    ("social_score", social_score);
    ("novelty_score", novelty_score);
    ("learn_score", learn_score);
    ("emotional_score", emotional_score) ]%string.

(** ** Normalization *)

Definition normalize (scores : list Q) : result (list Q) :=
  min_s ← py_min scores;
  max_s ← py_max scores;
  if Qeq_bool min_s max_s then Ok (map (fun _ => 0.5) scores)
  else comprehension (fun s => truediv (s - min_s) (max_s - min_s)) scores.

(** One round of the loop of [compute_normalized_scores]. *)
Definition normalized_step (options : list Option)
    (normalized : gmap string (odict Q)) (entry : string * (Option -> Q))
  : result (gmap string (odict Q)) :=
  let raw := map entry.2 options in
  norm ← normalize raw;
  Ok (<[entry.1 := dict_of (zip options norm)]> normalized).

Fixpoint for_each {A S : Type} (body : S -> A -> result S) (l : list A) (s : S)
  : result S :=
  match l with
  | [] => Ok s
  | x :: l' => s' ← body s x; for_each body l' s'
  end.

Definition compute_normalized_scores (options : list Option)
  : result (gmap string (odict Q)) :=
  for_each (normalized_step options) CRITERIA ∅.

(** ** Context *)

Record Context : Type := mkContext {
  device : Q;
  pressing_matters : Q
}.

(** [Context()]: both signals default to 0. *)
Definition default_Context : Context := mkContext 0 0.

Definition compute_weights (context : Context) : gmap string Q :=
  <["time_score" := 1.0 + pressing_matters context]>
  (<["social_score" := 1.0]>
  (<["novelty_score" := 1.0]>
  (<["learn_score" := 1.0]>
  (<["emotional_score" := 1.0]> ∅)))).

(** [weights.get(crit, dflt)] *)
Definition weights_get (weights : gmap string Q) (crit : string) (dflt : Q) : Q :=
  default dflt (weights !! crit).

(** ** The [statistics] module

    [mean] is the arithmetic mean and [variance] the sample variance (the sum
    of the squared deviations from the mean over [n - 1]); they raise
    [StatisticsError] below one and two data points respectively. *)

Definition mean (data : list Q) : result Q :=
  match data with
  | [] => Raise StatisticsError
  | _ => Ok (py_sum data / py_len data)
  end.

Definition variance (data : list Q) : result Q :=
  if (length data <? 2)%nat then Raise StatisticsError
  else
    let c := py_sum data / py_len data in
    Ok (py_sum (map (fun x => (x - c) * (x - c)) data) / (py_len data - 1)).

Definition expected_utility (values : list Q) (risk_lambda : Q) : result Q :=
  mu ← mean values;
  var ← (if (1 <? length values)%nat then variance values else Ok 0);
  Ok (mu - risk_lambda * var).

(** ** Combinational penalties *)

Definition combinational_impact (option : Option) : result Q :=
  let time := params_get option "time_taken" 1 in
  let learn := params_get option "learn_index" 0 in
  let novelty := params_get option "novelty_meter" 0 in
  let fulfil := params_get option "fulfilment_value" 0 in
  learn_impact ← truediv learn time;
  novelty_impact ← truediv novelty time;
  fulfil_impact ← truediv fulfil (Qmax time 1);
  let total_impact := learn_impact + novelty_impact + fulfil_impact in
  Ok total_impact.

(** ** The process-wide random generator

    [random.gauss(mu, sigma)] draws from the hidden generator of the [random]
    module and advances it; [random.seed(s)] resets it.  The generator is an
    interface here: any state type with these two operations. *)

Class RandomSource : Type := {
  rng : Type;
  gauss : Q -> Q -> rng -> Q * rng;
  seed : Z -> rng
}.

(** A linear congruential generator with a coarse bell-shaped draw, used to
    run the code on concrete inputs. *)
Definition lcg_next (s : Z) : Z := ((1103515245 * s + 12345) mod 2147483648)%Z.

#[global] Instance lcg_source : RandomSource := {|
  rng := Z;
  gauss mu sigma s := (mu + sigma * ((s mod 7 - 3)%Z # 2), lcg_next s);
  seed s := lcg_next s
|}.

Section Scoring.
Context {R : RandomSource}.

(** Computations that may raise and that read and advance the generator.
    The state reached at a [Raise] is kept: draws are not undone. *)
Definition M (A : Type) : Type := rng -> result A * rng.

#[global] Instance M_ret : MRet M := fun _ a s => (Ok a, s).
#[global] Instance M_bind : MBind M := fun _ _ f m s =>
  match m s with
  | (Ok a, s') => f a s'
  | (Raise e, s') => (Raise e, s')
  end.

(** A computation that leaves the generator alone. *)
Definition pure {A : Type} (r : result A) : M A := fun s => (r, s).

Definition random_gauss (mu sigma : Q) : M Q :=
  fun s => let '(x, s') := gauss mu sigma s in (Ok x, s').

(** [[expr for _ in range(k)]] *)
Fixpoint repeat_draw (k : nat) (draw : M Q) : M (list Q) :=
  match k with
  | O => mret []
  | S k' => x ← draw; xs ← repeat_draw k' draw; mret (x :: xs)
  end.

Definition simulate_fulfilment (option : Option) (context : Context) (n : Z)
  : M (list Q) :=
  let base := params_get option "fulfilment_value" 0 in
  let scaled :=
    base * (1 + 0.5 * pressing_matters context + 0.5 * device context) in
  let sigma := 0.5 in
  repeat_draw (Z.to_nat n) (random_gauss scaled sigma).

(** [normalized_scores[crit]] *)
Definition table_getitem (normalized : gmap string (odict Q)) (crit : string)
  : result (odict Q) :=
  match normalized !! crit with
  | Some t => Ok t
  | None => Raise KeyError
  end.

(** The inner loop of [score]: the weighted sum of the normalized criteria. *)
Definition weighted_sum (normalized : gmap string (odict Q))
    (weights : gmap string Q) (opt : Option) : result Q :=
  for_each
    (fun total crit =>
       t ← table_getitem normalized crit;
       x ← dict_getitem t opt;
       Ok (total + x * weights_get weights crit 1.0))
    CRITERIA.*1 0.

(** One round of the outer loop of [score]. *)
Definition score_step (context : Context) (normalized : gmap string (odict Q))
    (weights : gmap string Q) (scores : odict Q) (opt : Option)
  : M (odict Q) :=
  total ← pure (weighted_sum normalized weights opt);
  fulfil_values ← simulate_fulfilment opt context 100;
  eu ← pure (expected_utility fulfil_values 0.01);
  let total := total + eu in
  ci ← pure (combinational_impact opt);
  let total := total + ci in
  mret (dict_set scores opt total).

Fixpoint for_each_M {A S : Type} (body : S -> A -> M S) (l : list A) (s : S)
  : M S :=
  match l with
  | [] => mret s
  | x :: l' => s' ← body s x; for_each_M body l' s'
  end.

Definition score (options : list Option) (context : Context) : M (odict Q) :=
  normalized_scores ← pure (compute_normalized_scores options);
  let weights := compute_weights context in
  for_each_M (score_step context normalized_scores weights) options [].

End Scoring.

(** ** Explanation *)

(** What [explain] prints, line by line; a score is printed with three
    decimals, which the embedding leaves as the number. *)
Inductive line : Type :=
  | ScoresHeader                       (* "Scores for all options:" *)
  | ScoreLine (n : string) (v : Q)     (* "{opt.name}: {score_value:.3f}" *)
  | SelectedHeader                     (* "\nSelected option:" *)
  | SelectedLine (n : string) (v : Q). (* "{best.name} with score: ..." *)

(** [max(d, key=d.get)]: the first key of [d] whose value is the greatest;
    [ValueError] on an empty dictionary.  The keys come from [d] itself, so
    [d.get] finds each of them. *)
Definition max_by_get (d : odict Q) : result Option :=
  let key k := default 0 (dict_get d k) in
  match dict_keys d with
  | [] => Raise ValueError
  | k :: ks =>
      Ok (fold_left
            (fun best item => if Qlt_le_dec (key best) (key item) then item else best)
            ks k)
  end.

(** [explain] returns the lines printed and how the call ended. *)
Definition explain (scores : odict Q) : list line * result () :=
  let printed :=
    ScoresHeader :: map (fun '(opt, score_value) => ScoreLine (name opt) score_value) scores in
  match max_by_get scores with
  | Raise e => (printed, Raise e)
  | Ok best =>
      match dict_getitem scores best with
      | Raise e => (printed ++ [SelectedHeader], Raise e)
      | Ok v => (printed ++ [SelectedHeader; SelectedLine (name best) v], Ok ())
      end
  end.

(** ** Example usage

    The data of the [__main__] block of [decision.py], and the three calls
    the block makes: filter, score, explain. *)

(** [Option(name, {...})] with the six attributes of the examples;
    [extra] holds further attributes. *)
Definition example_option (i : positive) (n : string)
    (time_taken social_value novelty_meter learn_index move_heart fulfilment_value : Q)
    (extra : gmap string Q) : Option :=
  mkOption i n
    (<["time_taken" := time_taken]>
    (<["social_value" := social_value]>
    (<["novelty_meter" := novelty_meter]>
    (<["learn_index" := learn_index]>
    (<["move_heart" := move_heart]>
    (<["fulfilment_value" := fulfilment_value]> extra)))))).

Definition read_book : Option := example_option 1 "Read book" 5 2 3 5 1 6 ∅.
Definition go_for_walk : Option := example_option 2 "Go for walk" 3 4 2 2 3 4 ∅.
Definition play_game : Option := example_option 3 "Play game" 8 1 4 1 5 3 ∅.

Definition example_options : list Option := [read_book; go_for_walk; play_game].
Definition example_context : Context := mkContext 1 2.

(** A run of a script: what it printed, how it ended, and the generator
    it left behind. *)
Definition run_script `{RandomSource} (options : list Option) (context : Context)
    (s : rng) : list line * result () * rng :=
  let options := apply_constraints options in
  match score options context s with
  | (Raise e, s') => ([], Raise e, s')
  | (Ok scores_dict, s') => (explain scores_dict, s')
  end.

(** ** Reference quantities

    The mean and the sample variance as the formulas name them, total on
    lists: the variance is 0 below two points. *)

Definition total (l : list Q) : Q := foldr Qplus 0 l.

Definition average (l : list Q) : Q := total l / py_len l.

Definition sample_variance (l : list Q) : Q :=
  if (length l <? 2)%nat then 0
  else total (map (fun x => (x - average l) * (x - average l)) l) / (py_len l - 1).

(** Two options are the same key of a name-keyed container. *)
Definition same_name (a b : Option) : Prop := name a = name b.

(** A second instance with the name of [read_book]. *)
Definition read_book_again : Option :=
  example_option 4 "Read book" 3 4 2 2 3 4 ∅.

(** The draws of [k] successive calls of [random.gauss(mu, sigma)] and the
    generator after them. *)
Fixpoint draws `{RandomSource} (k : nat) (mu sigma : Q) (s : rng) : list Q * rng :=
  match k with
  | O => ([], s)
  | S k' =>
      let '(x, s') := gauss mu sigma s in
      let '(xs, s'') := draws k' mu sigma s' in
      (x :: xs, s'')
  end.

(** The mean of the samples of an option: its fulfilment scaled by the
    context. *)
Definition scaled_fulfilment (option : Option) (context : Context) : Q :=
  params_get option "fulfilment_value" 0
  * (1 + 0.5 * pressing_matters context + 0.5 * device context).

(** The samples that [score] draws for one option, and the generator after
    them. *)
Definition score_samples `{RandomSource} (opt : Option) (context : Context)
    (s : rng) : list Q * rng :=
  draws (Z.to_nat 100) (scaled_fulfilment opt context) 0.5 s.

(** The generator after the samples of each option of a list were drawn in
    turn. *)
Fixpoint generator_after `{RandomSource} (options : list Option)
    (context : Context) (s : rng) : rng :=
  match options with
  | [] => s
  | opt :: rest => generator_after rest context (score_samples opt context s).2
  end.

(** The option of the combinational-impact example, with a [time_taken]
    of 0. *)
Definition no_time_option : Option := example_option 5 "Read book" 0 2 3 5 1 6 ∅.

(** The value [score] stores for [opt] when the samples of [opt] are drawn
    from the generator [s0]: the weighted normalized criteria, plus the
    expected utility of those samples, plus the combinational impact. *)
Definition score_entry `{RandomSource} (context : Context)
    (tables : gmap string (odict Q)) (opt : Option) (s0 : rng) (v : Q) : Prop :=
  exists t eu ci : Q,
    weighted_sum tables (compute_weights context) opt = Ok t /\
    expected_utility (score_samples opt context s0).1 0.01 = Ok eu /\
    combinational_impact opt = Ok ci /\
    v = t + eu + ci.

(** ** Machine arithmetic

    [normalize] on raw values that are Python floats, that is IEEE 754
    binary64 numbers: the comparisons, the subtraction and the division are
    the machine ones, and [/] raises on a divisor equal to zero. *)
Module Binary64.
Import PrimFloat.
#[local] Set Warnings "-inexact-float".

Definition truediv (a b : PrimFloat.float) : result PrimFloat.float :=
  if PrimFloat.eqb b 0%float then Raise ZeroDivisionError
  else Ok (PrimFloat.div a b).

Definition py_min (l : list PrimFloat.float) : result PrimFloat.float :=
  match l with
  | [] => Raise ValueError
  | x :: l' => Ok (fold_left (fun best y => if PrimFloat.ltb y best then y else best) l' x)
  end.

Definition py_max (l : list PrimFloat.float) : result PrimFloat.float :=
  match l with
  | [] => Raise ValueError
  | x :: l' => Ok (fold_left (fun best y => if PrimFloat.ltb best y then y else best) l' x)
  end.

Definition normalize (scores : list PrimFloat.float)
  : result (list PrimFloat.float) :=
  min_s ← py_min scores;
  max_s ← py_max scores;
  if PrimFloat.eqb min_s max_s then Ok (map (fun _ => 0.5%float) scores)
  else comprehension
         (fun s => truediv (PrimFloat.sub s min_s) (PrimFloat.sub max_s min_s))
         scores.

(** [0 <= x <= 1] *)
Definition in_unit_interval (x : PrimFloat.float) : bool :=
  PrimFloat.leb 0%float x && PrimFloat.leb x 1%float.

(** The raw values [[-1e308, 1e308]]. *)
Definition huge : PrimFloat.float := 1e308%float.
Definition wide_range : list PrimFloat.float := [PrimFloat.opp huge; huge].

End Binary64.

(** Membership of a registered criterion in [CRITERIA]. *)
Ltac criterion_in :=
  unfold CRITERIA;
  repeat first [apply list_elem_of_here | apply list_elem_of_further].

(** * Proofs *)

(** ** The [result] monad and comprehensions *)

Lemma comprehension_ok {A B : Type} (f : A -> result B) (g : A -> B) (l : list A) :
  (forall x, x ∈ l -> f x = Ok (g x)) ->
  comprehension f l = Ok (map g l).
Proof.
  induction l as [|x l IH]; intros Hf; simpl; [done|].
  rewrite (Hf x) by constructor. simpl.
  rewrite IH; [done|]. intros y Hy. apply Hf. by constructor.
Qed.

Lemma truediv_ok (a b : Q) : ~ b == 0 -> truediv a b = Ok (a / b).
Proof.
  intros Hb. unfold truediv.
  destruct (Qeq_bool b 0) eqn:E; [|done].
  apply Qeq_bool_iff in E. contradiction.
Qed.

Lemma truediv_zero (a b : Q) : b == 0 -> truediv a b = Raise ZeroDivisionError.
Proof.
  intros Hb. unfold truediv.
  apply Qeq_bool_iff in Hb. by rewrite Hb.
Qed.

(** ** [min] and [max] *)

Lemma fold_min_spec (l : list Q) (x : Q) :
  let m := fold_left (fun best y => if Qlt_le_dec y best then y else best) l x in
  (m = x \/ m ∈ l) /\ m <= x /\ (forall y, y ∈ l -> m <= y).
Proof.
  revert x. induction l as [|a l IH]; intros x; simpl.
  - split; [by left|]. split; [lra|]. intros y Hy. inversion Hy.
  - destruct (Qlt_le_dec a x) as [Hax|Hxa].
    + destruct (IH a) as (Hm & Hle & Hall). split; [|split].
      * right. destruct Hm as [->|Hm]; [constructor | by constructor].
      * lra.
      * intros y Hy. inversion Hy; subst; [done | by apply Hall].
    + destruct (IH x) as (Hm & Hle & Hall). split; [|split].
      * destruct Hm as [Hm|Hm]; [by left | right; by constructor].
      * done.
      * intros y Hy. inversion Hy; subst; [lra | by apply Hall].
Qed.

Lemma fold_max_spec (l : list Q) (x : Q) :
  let m := fold_left (fun best y => if Qlt_le_dec best y then y else best) l x in
  (m = x \/ m ∈ l) /\ x <= m /\ (forall y, y ∈ l -> y <= m).
Proof.
  revert x. induction l as [|a l IH]; intros x; simpl.
  - split; [by left|]. split; [lra|]. intros y Hy. inversion Hy.
  - destruct (Qlt_le_dec x a) as [Hxa|Hax].
    + destruct (IH a) as (Hm & Hle & Hall). split; [|split].
      * right. destruct Hm as [->|Hm]; [constructor | by constructor].
      * lra.
      * intros y Hy. inversion Hy; subst; [done | by apply Hall].
    + destruct (IH x) as (Hm & Hle & Hall). split; [|split].
      * destruct Hm as [Hm|Hm]; [by left | right; by constructor].
      * done.
      * intros y Hy. inversion Hy; subst; [lra | by apply Hall].
Qed.

Lemma py_min_spec (l : list Q) :
  l <> [] ->
  exists lo, py_min l = Ok lo /\ lo ∈ l /\ (forall v, v ∈ l -> lo <= v).
Proof.
  destruct l as [|x l]; [done|]. intros _.
  destruct (fold_min_spec l x) as (Hm & Hle & Hall).
  eexists. split; [reflexivity|]. split.
  - destruct Hm as [->|Hm]; [constructor | by constructor].
  - intros v Hv. inversion Hv; subst; [done | by apply Hall].
Qed.

Lemma py_max_spec (l : list Q) :
  l <> [] ->
  exists hi, py_max l = Ok hi /\ hi ∈ l /\ (forall v, v ∈ l -> v <= hi).
Proof.
  destruct l as [|x l]; [done|]. intros _.
  destruct (fold_max_spec l x) as (Hm & Hle & Hall).
  eexists. split; [reflexivity|]. split.
  - destruct Hm as [->|Hm]; [constructor | by constructor].
  - intros v Hv. inversion Hv; subst; [done | by apply Hall].
Qed.

(** ** Normalization *)

(** The two branches of [normalize] on a non-empty list. *)
Lemma normalize_cases (scores : list Q) :
  scores <> [] ->
  exists lo hi,
    py_min scores = Ok lo /\ py_max scores = Ok hi /\
    lo ∈ scores /\ hi ∈ scores /\
    (forall v, v ∈ scores -> lo <= v <= hi) /\
    normalize scores =
      Ok (if Qeq_bool lo hi then map (fun _ => 0.5) scores
          else map (fun s => (s - lo) / (hi - lo)) scores).
Proof.
  intros Hne.
  destruct (py_min_spec scores Hne) as (lo & Hlo & Hlo_in & Hlo_le).
  destruct (py_max_spec scores Hne) as (hi & Hhi & Hhi_in & Hhi_le).
  exists lo, hi. repeat split; auto.
  unfold normalize. rewrite Hlo, Hhi. simpl.
  destruct (Qeq_bool lo hi) eqn:E; [done|].
  apply comprehension_ok. intros x _. apply truediv_ok.
  intros H0. apply Qeq_bool_neq in E. apply E. lra.
Qed.

Lemma normalize_length (scores out : list Q) :
  normalize scores = Ok out -> length out = length scores.
Proof.
  destruct scores as [|x l] eqn:El; [done|]. rewrite <- El.
  destruct (normalize_cases scores) as (lo & hi & _ & _ & _ & _ & _ & Hn);
    [by subst|].
  rewrite Hn. intros [= <-]. destruct (Qeq_bool lo hi); by rewrite length_map.
Qed.

(** C5.  The outputs of [normalize] do not always lie in [0, 1].  On the
    raw values [[-1e308, 1e308]] the minimum and the maximum differ, their
    difference overflows to infinity, and the code returns [[0.0, nan]]:
    the second output is not a number of the unit interval. *)
Theorem normalize_wide_range_not_in_unit_interval :
  Binary64.py_min Binary64.wide_range = Ok (PrimFloat.opp Binary64.huge) /\
  Binary64.py_max Binary64.wide_range = Ok Binary64.huge /\
  PrimFloat.sub Binary64.huge (PrimFloat.opp Binary64.huge) = PrimFloat.infinity /\
  Binary64.normalize Binary64.wide_range = Ok [PrimFloat.zero; PrimFloat.nan] /\
  Binary64.in_unit_interval PrimFloat.nan = false.
Proof. repeat split; vm_compute; reflexivity. Qed.

(** ** Constraints *)

Lemma all_constraints_true (constraints : list (Option -> bool)) (opt : Option) :
  all_constraints constraints opt = true <->
  forall c, c ∈ constraints -> c opt = true.
Proof.
  unfold all_constraints. rewrite forallb_forall. split.
  - intros H c Hc. apply H. by apply list_elem_of_In.
  - intros H c Hc. apply H. by apply list_elem_of_In.
Qed.

(** Every sublist whose elements all satisfy [P] is a sublist of the
    filtered list: the filtered list is the largest such sublist. *)
Lemma sublist_filter_greatest {A : Type} (P : A -> Prop)
    `{!forall x, Decision (P x)} (k l : list A) :
  sublist k l -> Forall P k -> sublist k (filter P l).
Proof.
  induction 1 as [|x k l Hs IH|x k l Hs IH]; intros Hk.
  - constructor.
  - inversion Hk; subst. rewrite filter_cons_True by done.
    constructor. by apply IH.
  - rewrite filter_cons. destruct (decide (P x)); [constructor|]; by apply IH.
Qed.

Lemma time_constraint_false (opt : Option) :
  time_constraint opt = false <-> 35 < params_get opt "time_taken" 0.
Proof.
  unfold time_constraint. split.
  - intros H. apply Qnot_le_lt. intros Hle.
    apply Qle_bool_iff in Hle. congruence.
  - intros H. destruct (Qle_bool _ 35) eqn:E; [|done].
    apply Qle_bool_iff in E. lra.
Qed.

(** C6.  [apply_constraints] keeps, in their order, the options on which
    every configured predicate is true: its result is a sublist of the input
    whose elements all pass, and the largest one.  With the shipped
    configuration an option is rejected exactly when its [time_taken]
    (0 when absent) exceeds 35. *)
Theorem apply_constraints_ordered_subsequence :
  (forall (constraints : list (Option -> bool)) (options : list Option),
     let kept := apply_constraints_with constraints options in
     sublist kept options /\
     Forall (fun opt => forall c, c ∈ constraints -> c opt = true) kept /\
     (forall other,
        sublist other options ->
        Forall (fun opt => forall c, c ∈ constraints -> c opt = true) other ->
        sublist other kept) /\
     (forall opt, opt ∈ kept <->
                  opt ∈ options /\ forall c, c ∈ constraints -> c opt = true)) /\
  (forall options : list Option,
     apply_constraints options = apply_constraints_with CONSTRAINTS options /\
     sublist (apply_constraints options) options /\
     (forall opt, opt ∈ apply_constraints options <->
                  opt ∈ options /\ ~ 35 < params_get opt "time_taken" 0)) /\
  (forall opt : Option,
     all_constraints CONSTRAINTS opt = false <->
     35 < params_get opt "time_taken" 0).
Proof.
  split; [|split].
  - intros constraints options kept. subst kept. unfold apply_constraints_with.
    split; [apply sublist_filter|]. split; [|split].
    + apply Forall_forall. intros opt Hopt.
      apply list_elem_of_filter in Hopt as [Hp _]. by apply all_constraints_true.
    + intros other Hs Hall. apply sublist_filter_greatest; [done|].
      eapply Forall_impl; [exact Hall|]. intros opt Hopt. by apply all_constraints_true.
    + intros opt. rewrite list_elem_of_filter, all_constraints_true. tauto.
  - intros options. split; [done|]. split; [apply sublist_filter|].
    intros opt. unfold apply_constraints, apply_constraints_with.
    rewrite list_elem_of_filter, <- time_constraint_false.
    unfold all_constraints, CONSTRAINTS. simpl. rewrite andb_true_r.
    destruct (time_constraint opt); split; intros [? ?]; split; try done.
  - intros opt. rewrite <- time_constraint_false.
    unfold all_constraints, CONSTRAINTS. simpl. by rewrite andb_true_r.
Qed.

(** ** Sums, mean and variance *)

Lemma fold_left_Qplus (l : list Q) (a : Q) :
  fold_left Qplus l a == a + total l.
Proof.
  revert a. induction l as [|x l IH]; intros a; simpl.
  - lra.
  - rewrite IH. lra.
Qed.

Lemma py_sum_total (l : list Q) : py_sum l == total l.
Proof. unfold py_sum. rewrite fold_left_Qplus. lra. Qed.

Lemma total_map_ext (f g : Q -> Q) (l : list Q) :
  (forall x, f x == g x) -> total (map f l) == total (map g l).
Proof.
  intros Hfg. induction l as [|x l IH]; simpl; [lra|].
  rewrite IH, (Hfg x). lra.
Qed.

Lemma mean_average (data : list Q) :
  data <> [] -> exists mu, mean data = Ok mu /\ mu == average data.
Proof.
  destruct data as [|x l]; [done|]. intros _. eexists. split; [reflexivity|].
  unfold average. by rewrite py_sum_total.
Qed.

Lemma variance_sample_variance (data : list Q) :
  (2 <= length data)%nat ->
  exists var, variance data = Ok var /\ var == sample_variance data.
Proof.
  intros Hlen. unfold variance, sample_variance.
  destruct (length data <? 2)%nat eqn:E; [apply Nat.ltb_lt in E; lia|].
  eexists. split; [reflexivity|].
  rewrite py_sum_total.
  rewrite (total_map_ext _ (fun x => (x - average data) * (x - average data))).
  - reflexivity.
  - intros x. unfold average. by rewrite py_sum_total.
Qed.

Lemma expected_utility_nonempty (values : list Q) (risk_lambda : Q) :
  values <> [] ->
  exists v, expected_utility values risk_lambda = Ok v /\
            v == average values - risk_lambda * sample_variance values.
Proof.
  intros Hne. unfold expected_utility.
  destruct (mean_average values Hne) as (mu & -> & Hmu). simpl.
  destruct (1 <? length values)%nat eqn:E.
  - apply Nat.ltb_lt in E.
    destruct (variance_sample_variance values) as (var & -> & Hvar); [lia|].
    simpl. eexists. split; [reflexivity|]. by rewrite Hmu, Hvar.
  - apply Nat.ltb_ge in E. simpl. eexists. split; [reflexivity|].
    unfold sample_variance.
    destruct (length values <? 2)%nat eqn:E2; [|apply Nat.ltb_ge in E2; lia].
    rewrite Hmu. lra.
Qed.

(** C7.  On the empty sample sequence [expected_utility] does not return
    a number: the guard on the length covers the variance, which is taken
    as 0 there, but [mean] is called first and raises [StatisticsError]. *)
Theorem expected_utility_no_samples (risk_lambda : Q) :
  mean [] = Raise StatisticsError /\
  (if (1 <? length (@nil Q))%nat then variance [] else Ok 0) = Ok 0 /\
  expected_utility [] risk_lambda = Raise StatisticsError.
Proof. repeat split. Qed.

(** ** Combinational impact *)

Lemma Qmax_one_nonzero (t : Q) : ~ Qmax t 1 == 0.
Proof. pose proof (Q.le_max_r t 1). lra. Qed.

Lemma combinational_impact_ok (opt : Option) :
  ~ params_get opt "time_taken" 1 == 0 ->
  combinational_impact opt =
    Ok (params_get opt "learn_index" 0 / params_get opt "time_taken" 1
        + params_get opt "novelty_meter" 0 / params_get opt "time_taken" 1
        + params_get opt "fulfilment_value" 0 / Qmax (params_get opt "time_taken" 1) 1).
Proof.
  intros Ht. unfold combinational_impact.
  rewrite !(truediv_ok _ (params_get opt "time_taken" 1)) by done. simpl.
  rewrite truediv_ok by apply Qmax_one_nonzero. done.
Qed.

Lemma combinational_impact_raises (opt : Option) :
  params_get opt "time_taken" 1 == 0 ->
  combinational_impact opt = Raise ZeroDivisionError.
Proof.
  intros Ht. unfold combinational_impact. cbv zeta.
  rewrite (truediv_zero (params_get opt "learn_index" 0) _ Ht). reflexivity.
Qed.

(** C8.  On the option of the example with [time_taken = 0] instead of 5
    ([learn_index = 5], [novelty_meter = 3], [fulfilment_value = 6])
    [combinational_impact] returns no number: the key is present, so the
    default 1 is not used, and [learn / time] raises [ZeroDivisionError]. *)
Theorem combinational_impact_no_time_option :
  params no_time_option !! "time_taken" = Some 0 /\
  params no_time_option !! "learn_index" = Some 5 /\
  params no_time_option !! "novelty_meter" = Some 3 /\
  params no_time_option !! "fulfilment_value" = Some 6 /\
  truediv 5 0 = Raise ZeroDivisionError /\
  combinational_impact no_time_option = Raise ZeroDivisionError.
Proof. repeat split. Qed.


(** ** Weights *)



(** ** Dictionaries keyed by [Option] *)

(** The name takes no part in finding a key: the hash only narrows the
    search, and [==] is identity. *)
Lemma same_key_oid (k k' : Option) : same_key k k' = Pos.eqb (oid k) (oid k').
Proof.
  unfold same_key, Option_eq. destruct (Pos.eqb (oid k) (oid k')); simpl; [done|].
  by rewrite andb_false_r.
Qed.

Lemma same_key_true (k k' : Option) : same_key k k' = true <-> oid k = oid k'.
Proof. rewrite same_key_oid. apply Pos.eqb_eq. Qed.

Lemma same_key_false (k k' : Option) : same_key k k' = false <-> oid k <> oid k'.
Proof. rewrite same_key_oid. apply Pos.eqb_neq. Qed.

Lemma dict_get_set_same {V : Type} (d : odict V) (k : Option) (v : V) :
  dict_get (dict_set d k v) k = Some v.
Proof.
  induction d as [|[k' v'] d IH]; simpl.
  - replace (same_key k k) with true; [done|]. symmetry. by apply same_key_true.
  - destruct (same_key k k') eqn:E; simpl; rewrite E; [done | exact IH].
Qed.

Lemma dict_get_set_other {V : Type} (d : odict V) (k k2 : Option) (v : V) :
  oid k2 <> oid k ->
  dict_get (dict_set d k v) k2 = dict_get d k2.
Proof.
  intros Hne. induction d as [|[k' v'] d IH]; simpl.
  - replace (same_key k2 k) with false; [done|]. symmetry. by apply same_key_false.
  - destruct (same_key k k') eqn:E; simpl.
    + apply same_key_true in E.
      replace (same_key k2 k') with false; [done|].
      symmetry. apply same_key_false. congruence.
    + destruct (same_key k2 k'); [done | exact IH].
Qed.

Lemma dict_set_fresh {V : Type} (d : odict V) (k : Option) (v : V) :
  (forall k', k' ∈ dict_keys d -> oid k <> oid k') ->
  dict_set d k v = d ++ [(k, v)].
Proof.
  induction d as [|[k' v'] d IH]; intros Hfresh; simpl; [done|].
  replace (same_key k k') with false.
  - f_equal. apply IH. intros k2 Hk2. apply Hfresh. simpl. by constructor.
  - symmetry. apply same_key_false. apply Hfresh. simpl. constructor.
Qed.

Lemma dict_keys_set_present {V : Type} (d : odict V) (k : Option) (v : V) :
  is_Some (dict_get d k) -> dict_keys (dict_set d k v) = dict_keys d.
Proof.
  induction d as [|[k' v'] d IH]; simpl.
  - intros [? ?]. done.
  - destruct (same_key k k') eqn:E; simpl; [done|].
    intros Hs. f_equal. by apply IH.
Qed.

Lemma dict_get_None_fresh {V : Type} (d : odict V) (k : Option) :
  dict_get d k = None <-> forall k', k' ∈ dict_keys d -> oid k <> oid k'.
Proof.
  induction d as [|[k' v'] d IH]; simpl.
  - split; [|done]. intros _ k' Hk'. inversion Hk'.
  - destruct (same_key k k') eqn:E.
    + apply same_key_true in E. split; [done|].
      intros H. exfalso. apply (H k'); [constructor | done].
    + apply same_key_false in E. rewrite IH. split.
      * intros H k2 Hk2. inversion Hk2; subst; [done | by apply H].
      * intros H k2 Hk2. apply H. by constructor.
Qed.

(** Building a dictionary from pairs whose keys are distinct objects keeps
    the pairs as they are. *)
Lemma fold_dict_set_distinct {V : Type} (pairs d : odict V) :
  NoDup (oid <$> dict_keys (d ++ pairs)) ->
  fold_left (fun d kv => dict_set d kv.1 kv.2) pairs d = d ++ pairs.
Proof.
  revert d. induction pairs as [|[k v] pairs IH]; intros d Hnd; simpl.
  - by rewrite app_nil_r.
  - rewrite dict_set_fresh.
    + rewrite IH; rewrite <- app_assoc; done.
    + intros k' Hk' Heq.
      unfold dict_keys in Hnd. rewrite !fmap_app in Hnd. simpl in Hnd.
      apply NoDup_app in Hnd as (_ & Hdisj & _).
      apply (Hdisj (oid k')).
      * by apply list_elem_of_fmap_2.
      * rewrite Heq. constructor.
Qed.

Lemma dict_of_distinct {V : Type} (pairs : odict V) :
  NoDup (oid <$> dict_keys pairs) -> dict_of pairs = pairs.
Proof. intros Hnd. unfold dict_of. by rewrite fold_dict_set_distinct. Qed.

Lemma dict_keys_zip {V : Type} (ks : list Option) (vs : list V) :
  length vs = length ks -> dict_keys (zip ks vs) = ks.
Proof. intros Hlen. unfold dict_keys. apply fst_zip. lia. Qed.

Lemma dict_get_lookup {V : Type} (d : odict V) (i : nat) (k : Option) (v : V) :
  NoDup (oid <$> dict_keys d) ->
  d !! i = Some (k, v) -> dict_get d k = Some v.
Proof.
  revert i. induction d as [|[k' v'] d IH]; intros i Hnd Hi; [done|].
  simpl in Hnd. apply NoDup_cons in Hnd as [Hnotin Hnd].
  destruct i as [|i]; simpl in *.
  - injection Hi as -> ->.
    replace (same_key k k) with true; [done|]. symmetry. by apply same_key_true.
  - replace (same_key k k') with false; [by eapply IH|].
    symmetry. apply same_key_false. intros Heq. apply Hnotin. rewrite <- Heq.
    apply list_elem_of_fmap_2.
    eapply (list_elem_of_fmap_2' fst _ (k, v)); [|done].
    by eapply list_elem_of_lookup_2.
Qed.

(** ** Normalized score tables *)

Lemma normalize_ok (scores : list Q) :
  scores <> [] ->
  exists out, normalize scores = Ok out /\ length out = length scores /\
              Forall (fun w => 0 <= w <= 1) out.
Proof.
  intros Hne.
  destruct (normalize_cases scores Hne)
    as (lo & hi & _ & _ & Hlo & Hhi & Hbounds & Hn).
  eexists. split; [exact Hn|].
  destruct (Qeq_bool lo hi) eqn:E.
  - split; [by rewrite length_map|].
    apply Forall_forall. intros w Hw.
    apply list_elem_of_fmap in Hw as (? & -> & _). lra.
  - apply Qeq_bool_neq in E.
    assert (Hlt : lo < hi).
    { destruct (Hbounds lo Hlo) as [_ H1]. destruct (Qle_lt_or_eq _ _ H1); [done|].
      contradiction. }
    split; [by rewrite length_map|].
    apply Forall_forall. intros w Hw.
    apply list_elem_of_fmap in Hw as (v & -> & Hv).
    apply Hbounds in Hv. split.
    + apply Qle_shift_div_l; lra.
    + apply Qle_shift_div_r; lra.
Qed.

Lemma normalize_empty : normalize [] = Raise ValueError.
Proof. reflexivity. Qed.

(** On a non-empty candidate list every registered criterion gets its
    table: the dictionary built from the options zipped with the normalized
    raw scores. *)
Lemma compute_normalized_scores_ok (options : list Option) :
  options <> [] ->
  exists tables,
    compute_normalized_scores options = Ok tables /\
    forall crit f, (crit, f) ∈ CRITERIA ->
      exists norm,
        normalize (map f options) = Ok norm /\
        length norm = length options /\
        Forall (fun w => 0 <= w <= 1) norm /\
        tables !! crit = Some (dict_of (zip options norm)).
Proof.
  intros Hne.
  assert (Hraw : forall f : Option -> Q, map f options <> []).
  { intros f. destruct options; [done|]. discriminate. }
  destruct (normalize_ok _ (Hraw time_score)) as (n1 & Hn1 & Hl1 & Hb1).
  destruct (normalize_ok _ (Hraw social_score)) as (n2 & Hn2 & Hl2 & Hb2).
  destruct (normalize_ok _ (Hraw novelty_score)) as (n3 & Hn3 & Hl3 & Hb3).
  destruct (normalize_ok _ (Hraw learn_score)) as (n4 & Hn4 & Hl4 & Hb4).
  destruct (normalize_ok _ (Hraw emotional_score)) as (n5 & Hn5 & Hl5 & Hb5).
  rewrite length_map in Hl1, Hl2, Hl3, Hl4, Hl5.
  eexists. split.
  - unfold compute_normalized_scores, CRITERIA, normalized_step. simpl.
    rewrite Hn1. simpl. rewrite Hn2. simpl. rewrite Hn3. simpl.
    rewrite Hn4. simpl. rewrite Hn5. simpl. reflexivity.
  - intros crit f Hin. unfold CRITERIA in Hin.
    rewrite !elem_of_cons, elem_of_nil in Hin.
    destruct Hin as [[= -> ->]|[[= -> ->]|[[= -> ->]|[[= -> ->]|[[= -> ->]|[]]]]]];
      eexists; (split; [eassumption|]); (split; [done|]); (split; [done|]);
      reflexivity.
Qed.

Lemma compute_normalized_scores_empty :
  compute_normalized_scores [] = Raise ValueError.
Proof. reflexivity. Qed.

(** ** Sampling and scoring *)

Section ScoringProofs.
Context `{R : RandomSource}.

Lemma repeat_draw_draws (k : nat) (mu sigma : Q) (s : rng) :
  repeat_draw k (random_gauss mu sigma) s =
    (Ok (draws k mu sigma s).1, (draws k mu sigma s).2).
Proof.
  revert s. induction k as [|k IH]; intros s; simpl; [done|].
  unfold mbind, M_bind, random_gauss at 1.
  destruct (gauss mu sigma s) as [x s1]. rewrite IH.
  destruct (draws k mu sigma s1) as [xs s2]. done.
Qed.

Lemma draws_length (k : nat) (mu sigma : Q) (s : rng) :
  length (draws k mu sigma s).1 = k.
Proof.
  revert s. induction k as [|k IH]; intros s; simpl; [done|].
  destruct (gauss mu sigma s) as [x s1]. specialize (IH s1).
  destruct (draws k mu sigma s1) as [xs s2]. simpl in *. by rewrite IH.
Qed.

Lemma simulate_fulfilment_draws (option : Option) (context : Context) (n : Z)
    (s : rng) :
  simulate_fulfilment option context n s =
    (Ok (draws (Z.to_nat n) (scaled_fulfilment option context) 0.5 s).1,
     (draws (Z.to_nat n) (scaled_fulfilment option context) 0.5 s).2).
Proof. unfold simulate_fulfilment. cbv zeta. apply repeat_draw_draws. Qed.

Lemma score_samples_nonempty (opt : Option) (context : Context) (s : rng) :
  (score_samples opt context s).1 <> [].
Proof.
  intros Hnil.
  pose proof (draws_length (Z.to_nat 100) (scaled_fulfilment opt context) 0.5 s) as Hl.
  unfold score_samples in Hnil. rewrite Hnil in Hl. discriminate.
Qed.

(** One round of [score] on an option that has its normalized values and a
    non-zero time. *)
Lemma score_step_ok (context : Context) (normalized : gmap string (odict Q))
    (weights : gmap string Q) (scores : odict Q) (opt : Option) (t : Q) (s : rng) :
  weighted_sum normalized weights opt = Ok t ->
  ~ params_get opt "time_taken" 1 == 0 ->
  exists eu ci,
    expected_utility (score_samples opt context s).1 0.01 = Ok eu /\
    combinational_impact opt = Ok ci /\
    score_step context normalized weights scores opt s =
      (Ok (dict_set scores opt (t + eu + ci)), (score_samples opt context s).2).
Proof.
  intros Hws Htime.
  destruct (expected_utility_nonempty _ 0.01 (score_samples_nonempty opt context s))
    as (eu & Heu & _).
  exists eu. eexists. split; [done|]. split; [by apply combinational_impact_ok|].
  unfold score_step, mbind, M_bind, pure. rewrite Hws.
  rewrite simulate_fulfilment_draws. fold (score_samples opt context s).
  cbv beta iota. rewrite Heu. cbv beta iota.
  rewrite combinational_impact_ok by done. reflexivity.
Qed.

(** A round on an option whose [time_taken] is 0 raises after its samples
    were drawn. *)
Lemma score_step_zero_time (context : Context) (normalized : gmap string (odict Q))
    (weights : gmap string Q) (scores : odict Q) (opt : Option) (t : Q) (s : rng) :
  weighted_sum normalized weights opt = Ok t ->
  params_get opt "time_taken" 1 == 0 ->
  score_step context normalized weights scores opt s =
    (Raise ZeroDivisionError, (score_samples opt context s).2).
Proof.
  intros Hws Htime.
  destruct (expected_utility_nonempty _ 0.01 (score_samples_nonempty opt context s))
    as (eu & Heu & _).
  unfold score_step, mbind, M_bind, pure. rewrite Hws.
  rewrite simulate_fulfilment_draws. fold (score_samples opt context s).
  cbv beta iota. rewrite Heu. cbv beta iota.
  rewrite combinational_impact_raises by done. reflexivity.
Qed.

End ScoringProofs.

Lemma table_lookup (options : list Option) (norm : list Q) (opt : Option)
    (P : Q -> Prop) :
  NoDup (oid <$> options) ->
  length norm = length options ->
  Forall P norm ->
  opt ∈ options ->
  dict_of (zip options norm) = zip options norm /\
  exists x, dict_getitem (dict_of (zip options norm)) opt = Ok x /\ P x.
Proof.
  intros Hnd Hlen HP Hin.
  assert (Hd : dict_of (zip options norm) = zip options norm).
  { apply dict_of_distinct. by rewrite dict_keys_zip. }
  split; [done|]. rewrite Hd.
  apply list_elem_of_lookup in Hin as [i Hi].
  destruct (lookup_lt_is_Some_2 norm i) as [x Hx].
  { rewrite Hlen. by eapply lookup_lt_Some. }
  exists x. split.
  - unfold dict_getitem. erewrite dict_get_lookup; [done| |].
    + by rewrite dict_keys_zip.
    + apply lookup_zip_with_Some. eauto.
  - eapply Forall_lookup_1; eauto.
Qed.

(** The weighted sum of an option of the candidate list: five normalized
    values, each in [0, 1], each times its weight. *)
Lemma weighted_sum_ok (options : list Option) (tables : gmap string (odict Q))
    (weights : gmap string Q) (opt : Option) :
  NoDup (oid <$> options) ->
  compute_normalized_scores options = Ok tables ->
  opt ∈ options ->
  exists x1 x2 x3 x4 x5 : Q,
    (0 <= x1 <= 1 /\ 0 <= x2 <= 1 /\ 0 <= x3 <= 1 /\ 0 <= x4 <= 1 /\ 0 <= x5 <= 1) /\
    weighted_sum tables weights opt =
      Ok (0 + x1 * weights_get weights "time_score" 1.0
            + x2 * weights_get weights "social_score" 1.0
            + x3 * weights_get weights "novelty_score" 1.0
            + x4 * weights_get weights "learn_score" 1.0
            + x5 * weights_get weights "emotional_score" 1.0).
Proof.
  intros Hnd Htables Hin.
  assert (Hne : options <> []) by (intros ->; inversion Hin).
  destruct (compute_normalized_scores_ok options Hne) as (tables' & Ht' & Hcrit).
  rewrite Htables in Ht'. injection Ht' as <-.
  assert (Hval : forall crit f, (crit, f) ∈ CRITERIA ->
            exists tbl x, table_getitem tables crit = Ok tbl /\
                          dict_getitem tbl opt = Ok x /\ 0 <= x <= 1).
  { intros crit f Hc. destruct (Hcrit crit f Hc) as (norm & _ & Hlen & Hb & Hlook).
    destruct (table_lookup options norm opt _ Hnd Hlen Hb Hin) as (_ & x & Hx & Hbx).
    eexists. exists x. unfold table_getitem. rewrite Hlook. done. }
  destruct (Hval "time_score" time_score) as (t1 & x1 & Ht1 & Hx1 & Hb1);
    [criterion_in|].
  destruct (Hval "social_score" social_score) as (t2 & x2 & Ht2 & Hx2 & Hb2);
    [criterion_in|].
  destruct (Hval "novelty_score" novelty_score) as (t3 & x3 & Ht3 & Hx3 & Hb3);
    [criterion_in|].
  destruct (Hval "learn_score" learn_score) as (t4 & x4 & Ht4 & Hx4 & Hb4);
    [criterion_in|].
  destruct (Hval "emotional_score" emotional_score) as (t5 & x5 & Ht5 & Hx5 & Hb5);
    [criterion_in|].
  exists x1, x2, x3, x4, x5. split; [done|].
  unfold weighted_sum, CRITERIA. simpl.
  rewrite Ht1. simpl. rewrite Hx1. simpl.
  rewrite Ht2. simpl. rewrite Hx2. simpl.
  rewrite Ht3. simpl. rewrite Hx3. simpl.
  rewrite Ht4. simpl. rewrite Hx4. simpl.
  rewrite Ht5. simpl. rewrite Hx5. simpl. reflexivity.
Qed.

Section ScoreLoop.
Context `{R : RandomSource}.
Variable context : Context.
Variable options : list Option.
Variable tables : gmap string (odict Q).
Hypothesis options_distinct : NoDup (oid <$> options).
Hypothesis tables_of_options : compute_normalized_scores options = Ok tables.

Lemma score_loop_ok (todo : list Option) (scores : odict Q) (s : rng) :
  (forall o, o ∈ todo -> o ∈ options) ->
  (forall o, o ∈ todo -> ~ params_get o "time_taken" 1 == 0) ->
  NoDup (oid <$> (dict_keys scores ++ todo)) ->
  exists new s',
    for_each_M (score_step context tables (compute_weights context)) todo scores s
      = (Ok (scores ++ new), s') /\
    new.*1 = todo /\
    (forall (i : nat) opt v, new !! i = Some (opt, v) ->
       score_entry context tables opt (generator_after (take i todo) context s) v) /\
    s' = generator_after todo context s.
Proof.
  revert scores s. induction todo as [|opt todo IH]; intros scores s Hin Htime Hnd.
  - exists [], s. simpl. rewrite app_nil_r. repeat split; done.
  - destruct (weighted_sum_ok options tables (compute_weights context) opt)
      as (x1 & x2 & x3 & x4 & x5 & _ & Hws); [done|done|apply Hin; constructor|].
    destruct (score_step_ok context tables (compute_weights context) scores opt _ s Hws)
      as (eu & ci & Heu & Hci & Hstep); [apply Htime; constructor|].
    assert (Hfresh : forall k', k' ∈ dict_keys scores -> oid opt <> oid k').
    { intros k' Hk' Heq. rewrite fmap_app in Hnd.
      apply NoDup_app in Hnd as (_ & Hdisj & _).
      apply (Hdisj (oid k')); [by apply list_elem_of_fmap_2|].
      rewrite <- Heq. simpl. constructor. }
    rewrite dict_set_fresh in Hstep by done.
    destruct (IH (scores ++ [(opt, 0 + x1 * weights_get (compute_weights context) "time_score" 1.0
            + x2 * weights_get (compute_weights context) "social_score" 1.0
            + x3 * weights_get (compute_weights context) "novelty_score" 1.0
            + x4 * weights_get (compute_weights context) "learn_score" 1.0
            + x5 * weights_get (compute_weights context) "emotional_score" 1.0 + eu + ci)])
            (score_samples opt context s).2)
      as (new & s' & Hloop & Hkeys & Hentries & Hgen).
    + intros o Ho. apply Hin. by constructor.
    + intros o Ho. apply Htime. by constructor.
    + unfold dict_keys in *. rewrite !fmap_app in *. simpl in *.
      rewrite <- app_assoc. exact Hnd.
    + eexists (_ :: new), s'. split; [|split; [|split]].
      * simpl. unfold mbind, M_bind. rewrite Hstep. rewrite Hloop.
        by rewrite <- app_assoc.
      * rewrite fmap_cons, Hkeys. done.
      * intros [|i] o v Hi; simpl in Hi.
        -- injection Hi as <- <-. eexists _, eu, ci. simpl. done.
        -- simpl. by apply Hentries.
      * exact Hgen.
Qed.

(** The first option of the rest of the list whose [time_taken] is 0 ends
    the loop with [ZeroDivisionError]. *)
Lemma score_loop_zero_time (before after : list Option) (bad : Option)
    (scores : odict Q) (s : rng) :
  (forall o, o ∈ before ++ bad :: after -> o ∈ options) ->
  (forall o, o ∈ before -> ~ params_get o "time_taken" 1 == 0) ->
  params_get bad "time_taken" 1 == 0 ->
  exists s',
    for_each_M (score_step context tables (compute_weights context))
      (before ++ bad :: after) scores s = (Raise ZeroDivisionError, s').
Proof.
  intros Hin Htime Hbad. revert scores s.
  induction before as [|o before IH]; intros scores s.
  - destruct (weighted_sum_ok options tables (compute_weights context) bad)
      as (x1 & x2 & x3 & x4 & x5 & _ & Hws); [done | done | apply Hin; constructor |].
    eexists. simpl. unfold mbind, M_bind.
    by rewrite (score_step_zero_time _ _ _ _ _ _ _ Hws Hbad).
  - destruct (weighted_sum_ok options tables (compute_weights context) o)
      as (x1 & x2 & x3 & x4 & x5 & _ & Hws); [done | done | apply Hin; constructor |].
    destruct (score_step_ok context tables (compute_weights context) scores o _ s Hws)
      as (eu & ci & _ & _ & Hstep); [apply Htime; constructor|].
    destruct (IH (fun o' Ho' => Hin o' (list_elem_of_further _ _ _ Ho'))
                 (fun o' Ho' => Htime o' (list_elem_of_further _ _ _ Ho'))
                 (dict_set scores o
                    (0 + x1 * weights_get (compute_weights context) "time_score" 1.0
                     + x2 * weights_get (compute_weights context) "social_score" 1.0
                     + x3 * weights_get (compute_weights context) "novelty_score" 1.0
                     + x4 * weights_get (compute_weights context) "learn_score" 1.0
                     + x5 * weights_get (compute_weights context) "emotional_score" 1.0
                     + eu + ci))
                 (score_samples o context s).2) as [s' Hs'].
    exists s'. simpl. unfold mbind, M_bind. rewrite Hstep. exact Hs'.
Qed.

End ScoreLoop.

Section ScoreProofs.
Context `{R : RandomSource}.

Lemma score_empty (context : Context) (s : rng) :
  score [] context s = (Raise ValueError, s).
Proof. reflexivity. Qed.

(** [score] on a non-empty list of distinct objects, none with a zero
    time: one entry per option, in the order of the list. *)
Lemma score_ok (options : list Option) (context : Context) (s : rng) :
  options <> [] ->
  NoDup (oid <$> options) ->
  (forall o, o ∈ options -> ~ params_get o "time_taken" 1 == 0) ->
  exists tables d s',
    compute_normalized_scores options = Ok tables /\
    score options context s = (Ok d, s') /\
    dict_keys d = options /\
    (forall (i : nat) opt v, d !! i = Some (opt, v) ->
       score_entry context tables opt (generator_after (take i options) context s) v) /\
    s' = generator_after options context s.
Proof.
  intros Hne Hnd Htime.
  destruct (compute_normalized_scores_ok options Hne) as (tables & Htables & _).
  destruct (score_loop_ok context options tables Hnd Htables options [] s)
    as (new & s' & Hloop & Hkeys & Hentries & Hgen); [done | done | done |].
  exists tables, new, s'. split; [done|]. split; [|done].
  unfold score, mbind, M_bind, pure. rewrite Htables. exact Hloop.
Qed.

Lemma first_zero_time (options : list Option) :
  (exists o, o ∈ options /\ params_get o "time_taken" 1 == 0) ->
  exists before bad after,
    options = before ++ bad :: after /\
    (forall o, o ∈ before -> ~ params_get o "time_taken" 1 == 0) /\
    params_get bad "time_taken" 1 == 0.
Proof.
  induction options as [|x l IH]; intros (o & Ho & Hz); [inversion Ho|].
  destruct (Qeq_dec (params_get x "time_taken" 1) 0) as [Hx|Hx].
  - exists [], x, l. split; [done|]. split; [|done]. intros ? H. inversion H.
  - destruct IH as (before & bad & after & -> & Hgood & Hbad).
    { exists o. split; [|done]. inversion Ho; subst; [contradiction | done]. }
    exists (x :: before), bad, after. split; [done|]. split; [|done].
    intros o' Ho'. inversion Ho'; subst; [done | by apply Hgood].
Qed.

Lemma score_zero_time (options : list Option) (context : Context) (s : rng) :
  NoDup (oid <$> options) ->
  (exists o, o ∈ options /\ params_get o "time_taken" 1 == 0) ->
  exists s', score options context s = (Raise ZeroDivisionError, s').
Proof.
  intros Hnd Hbad.
  assert (Hne : options <> []).
  { destruct Hbad as (o & Ho & _). intros ->. inversion Ho. }
  destruct (compute_normalized_scores_ok options Hne) as (tables & Htables & _).
  destruct (first_zero_time options Hbad) as (before & bad & after & Heq & Hgood & Hz).
  subst options.
  destruct (score_loop_zero_time context _ tables Hnd Htables before after bad [] s)
    as [s' Hs']; [done | done | done |].
  exists s'. unfold score, mbind, M_bind, pure. rewrite Htables. exact Hs'.
Qed.

(** C1.  On an empty candidate list [score] does not return an empty
    mapping: the first call of [normalize] takes the minimum of an empty list,
    and [score] ends with that [ValueError] before any sample is drawn. *)
Theorem score_on_no_options (context : Context) (s : rng) :
  normalize [] = Raise ValueError /\
  compute_normalized_scores [] = Raise ValueError /\
  score [] context s = (Raise ValueError, s) /\
  score (apply_constraints []) context s = (Raise ValueError, s).
Proof. repeat split. Qed.

(** C3.  Two instances that share a name and are different objects are two
    keys: each normalized-score table and the score mapping hold one entry
    for each of them. *)
Theorem same_name_options_are_two_keys (a b : Option) (context : Context) (s : rng) :
  same_name a b ->
  oid a <> oid b ->
  same_hash a b = true /\ Option_eq a b = false /\ same_key a b = false /\
  (exists tables,
     compute_normalized_scores [a; b] = Ok tables /\
     forall crit f, (crit, f) ∈ CRITERIA ->
       exists t, tables !! crit = Some t /\ dict_keys t = [a; b]) /\
  (~ params_get a "time_taken" 1 == 0 ->
   ~ params_get b "time_taken" 1 == 0 ->
   exists d s', score [a; b] context s = (Ok d, s') /\ dict_keys d = [a; b]).
Proof.
  intros Hname Hoid.
  assert (Hnd : NoDup (oid <$> [a; b])).
  { simpl. apply NoDup_cons. split; [|apply NoDup_singleton].
    intros Hin. apply list_elem_of_singleton in Hin. done. }
  split; [|split; [|split; [|split]]].
  - unfold same_hash, Option_hash. by apply bool_decide_eq_true.
  - unfold Option_eq. by apply Pos.eqb_neq.
  - by apply same_key_false.
  - destruct (compute_normalized_scores_ok [a; b]) as (tables & Ht & Hcrit); [done|].
    exists tables. split; [done|]. intros crit f Hc.
    destruct (Hcrit crit f Hc) as (norm & _ & Hlen & Hb & Hlook).
    eexists. split; [exact Hlook|].
    rewrite dict_of_distinct; rewrite dict_keys_zip; done.
  - intros Ha Hb.
    destruct (score_ok [a; b] context s) as (tables & d & s' & _ & Hs & Hk & _ & _);
      [done | done | |by exists d, s'].
    intros o Ho. rewrite !elem_of_cons, elem_of_nil in Ho.
    destruct Ho as [->|[->|[]]]; done.
Qed.

End ScoreProofs.

Lemma same_name_options_are_two_keys_witness :
  exists d s',
    score [read_book; read_book_again] example_context (seed 1) = (Ok d, s') /\
    dict_keys d = [read_book; read_book_again].
Proof.
  destruct (same_name_options_are_two_keys (R := lcg_source)
              read_book read_book_again example_context (seed 1))
    as (_ & _ & _ & _ & H); [reflexivity | discriminate |].
  apply H; vm_compute; discriminate.
Defined.

(** C2.  On an empty score mapping [explain] prints the header line and
    then ends with the [ValueError] of [max] on an empty sequence: no option
    and no absent result is reported. *)
Theorem explain_on_empty_mapping :
  max_by_get [] = Raise ValueError /\
  explain [] = ([ScoresHeader], Raise ValueError).
Proof. split; reflexivity. Qed.

(** * Further properties *)

(** ** Normalization *)

(** [normalize] raises [ValueError], the error of [min] on an empty
    sequence, exactly when the list of raw scores is empty. *)
Theorem normalize_value_error_iff_empty (scores : list Q) :
  normalize scores = Raise ValueError <-> scores = [].
Proof.
  split.
  - intros He. destruct scores as [|x l]; [done|].
    destruct (normalize_ok (x :: l)) as (out & Hout & _); [done|]. congruence.
  - intros ->. apply normalize_empty.
Qed.

(** ** Constraints *)

(** Filtering twice changes nothing more, filtering a concatenation filters
    its parts, and an option without a [time_taken] attribute always passes
    the shipped constraint. *)
Theorem apply_constraints_idempotent (options more : list Option) :
  apply_constraints (apply_constraints options) = apply_constraints options /\
  apply_constraints (options ++ more) =
    apply_constraints options ++ apply_constraints more /\
  (length (apply_constraints options) <= length options)%nat /\
  (forall opt, opt ∈ options -> params opt !! "time_taken" = None ->
               opt ∈ apply_constraints options).
Proof.
  unfold apply_constraints, apply_constraints_with. split; [|split; [|split]].
  - rewrite list_filter_filter. apply list_filter_iff. tauto.
  - apply filter_app.
  - apply length_filter.
  - intros opt Hin Hnone. apply list_elem_of_filter. split; [|done].
    unfold all_constraints, CONSTRAINTS, time_constraint, params_get. simpl.
    rewrite Hnone. reflexivity.
Qed.

(** ** Expected utility *)






Lemma expected_utility_empty (risk_lambda : Q) :
  expected_utility [] risk_lambda = Raise StatisticsError.
Proof. reflexivity. Qed.

(** [expected_utility] raises [StatisticsError], the error of [mean] on no
    data, exactly when the sample sequence is empty: with one sample the
    guard on the length keeps [variance] from being called. *)
Theorem expected_utility_statistics_error_iff_empty (values : list Q)
    (risk_lambda : Q) :
  expected_utility values risk_lambda = Raise StatisticsError <-> values = [].
Proof.
  split.
  - intros He. destruct values as [|x l]; [done|].
    destruct (expected_utility_nonempty (x :: l) risk_lambda) as (v & Hv & _); [done|].
    congruence.
  - intros ->. apply expected_utility_empty.
Qed.







(** ** Sampling *)

Section SamplingProperties.
Context `{R : RandomSource}.




End SamplingProperties.


(** ** Normalized score tables and the score mapping *)

Lemma example_options_distinct : NoDup (oid <$> example_options).
Proof. apply (bool_decide_unpack _). vm_compute. reflexivity. Qed.

Lemma example_options_time (o : Option) :
  o ∈ example_options -> ~ params_get o "time_taken" 1 == 0.
Proof.
  unfold example_options. rewrite !elem_of_cons, elem_of_nil.
  intros [->|[->|[->|[]]]]; vm_compute; discriminate.
Qed.

(** When [compute_normalized_scores] returns for a list of distinct
    options, every registered criterion has a table whose keys are the
    options in their order; the value of an option is the normalized raw
    score at its position, and looking the option up returns it. *)
Theorem normalized_tables_keyed_by_options (options : list Option)
    (tables : gmap string (odict Q)) :
  NoDup (oid <$> options) ->
  compute_normalized_scores options = Ok tables ->
  forall crit f, (crit, f) ∈ CRITERIA ->
    exists norm t,
      normalize (map f options) = Ok norm /\
      tables !! crit = Some t /\ dict_keys t = options /\
      forall (i : nat) (opt : Option), options !! i = Some opt ->
        exists x, norm !! i = Some x /\ t !! i = Some (opt, x) /\
                  dict_getitem t opt = Ok x.
Proof.
  intros Hnd Htables crit f Hc.
  assert (Hne : options <> []) by (intros ->; discriminate).
  destruct (compute_normalized_scores_ok options Hne) as (tables' & Ht' & Hcrit).
  rewrite Htables in Ht'. injection Ht' as <-.
  destruct (Hcrit crit f Hc) as (norm & Hnorm & Hlen & _ & Hlook).
  assert (Hd : dict_of (zip options norm) = zip options norm).
  { apply dict_of_distinct. by rewrite dict_keys_zip. }
  exists norm, (zip options norm). split; [done|]. split; [by rewrite <- Hd|].
  split; [by apply dict_keys_zip|].
  intros i opt Hi.
  destruct (lookup_lt_is_Some_2 norm i) as [x Hx].
  { rewrite Hlen. by eapply lookup_lt_Some. }
  assert (Hzip : zip options norm !! i = Some (opt, x)).
  { apply lookup_zip_with_Some. eauto. }
  exists x. split; [done|]. split; [done|].
  unfold dict_getitem. erewrite dict_get_lookup; [done| |exact Hzip].
  by rewrite dict_keys_zip.
Qed.

Lemma normalized_tables_keyed_by_options_witness :
  exists tables,
    compute_normalized_scores example_options = Ok tables /\
    forall crit f, (crit, f) ∈ CRITERIA ->
      exists norm t,
        normalize (map f example_options) = Ok norm /\
        tables !! crit = Some t /\ dict_keys t = example_options /\
        forall (i : nat) (opt : Option), example_options !! i = Some opt ->
          exists x, norm !! i = Some x /\ t !! i = Some (opt, x) /\
                    dict_getitem t opt = Ok x.
Proof.
  destruct (compute_normalized_scores_ok example_options) as (tables & Ht & _);
    [discriminate|].
  exists tables. split; [exact Ht|].
  exact (normalized_tables_keyed_by_options example_options tables
           example_options_distinct Ht).
Defined.

Lemma zero_time_dec (options : list Option) :
  (forall o, o ∈ options -> ~ params_get o "time_taken" 1 == 0) \/
  (exists o, o ∈ options /\ params_get o "time_taken" 1 == 0).
Proof.
  induction options as [|x l IH].
  - left. intros o Ho. inversion Ho.
  - destruct (Qeq_dec (params_get x "time_taken" 1) 0) as [Hx|Hx].
    + right. exists x. split; [constructor | done].
    + destruct IH as [Hall|(o & Ho & Hz)].
      * left. intros o Ho. inversion Ho; subst; [done | by apply Hall].
      * right. exists o. split; [by constructor | done].
Qed.

Section ScoreProperties.
Context `{R : RandomSource}.

(** [score] returns only for a non-empty list without a zero time. *)
Lemma score_returns_inv (options : list Option) (context : Context)
    (s s' : rng) (d : odict Q) :
  NoDup (oid <$> options) ->
  score options context s = (Ok d, s') ->
  options <> [] /\
  forall o, o ∈ options -> ~ params_get o "time_taken" 1 == 0.
Proof.
  intros Hnd Hs. split.
  - intros ->. rewrite score_empty in Hs. discriminate.
  - destruct (zero_time_dec options) as [Hall|Hbad]; [done|].
    destruct (score_zero_time options context s Hnd Hbad) as [s2 Hs2]. congruence.
Qed.

(** When [score] returns for a list of distinct options, the mapping has
    one entry per option, in the order of the list.  The entry at position
    [i] holds the weighted sum of the option's normalized criteria, plus the
    expected utility (risk 0.01) of the 100 samples drawn for it, which
    start where the samples of the [i] options before it left the
    generator, plus its combinational impact.  The generator is left where
    the samples of all the options leave it. *)
Theorem score_returns_one_entry_per_option (options : list Option)
    (context : Context) (s s' : rng) (d : odict Q) :
  NoDup (oid <$> options) ->
  score options context s = (Ok d, s') ->
  dict_keys d = options /\
  s' = generator_after options context s /\
  exists tables,
    compute_normalized_scores options = Ok tables /\
    forall (i : nat) opt v, d !! i = Some (opt, v) ->
      score_entry context tables opt (generator_after (take i options) context s) v.
Proof.
  intros Hnd Hs.
  destruct (score_returns_inv options context s s' d Hnd Hs) as [Hne Htime].
  destruct (score_ok options context s Hne Hnd Htime)
    as (tables & d' & s2 & Ht & Hs' & Hkeys & Hentries & Hgen).
  rewrite Hs in Hs'. injection Hs' as <- <-.
  split; [done|]. split; [done|]. by exists tables.
Qed.

(** [score] returns a mapping only for a non-empty list in which no option
    has a [time_taken] of 0: one such option makes the whole call fail,
    whatever the other options are. *)
Theorem score_returns_only_without_zero_time (options : list Option)
    (context : Context) (s s' : rng) (d : odict Q) :
  NoDup (oid <$> options) ->
  score options context s = (Ok d, s') ->
  options <> [] /\
  (forall o t, o ∈ options -> params o !! "time_taken" = Some t -> ~ t == 0) /\
  (forall o, o ∈ options -> exists ci, combinational_impact o = Ok ci).
Proof.
  intros Hnd Hs.
  destruct (score_returns_inv options context s s' d Hnd Hs) as [Hne Htime].
  split; [done|]. split.
  - intros o t Ho Ht H0. apply (Htime o Ho). unfold params_get. by rewrite Ht.
  - intros o Ho. eexists. apply combinational_impact_ok. by apply Htime.
Qed.

End ScoreProperties.

Lemma score_returns_one_entry_per_option_witness :
  exists d s',
    score (R := lcg_source) example_options example_context (seed 7) = (Ok d, s') /\
    dict_keys d = example_options /\
    s' = generator_after example_options example_context (seed 7) /\
    exists tables,
      compute_normalized_scores example_options = Ok tables /\
      forall (i : nat) opt v, d !! i = Some (opt, v) ->
        score_entry example_context tables opt
          (generator_after (take i example_options) example_context (seed 7)) v.
Proof.
  destruct (score_ok (R := lcg_source) example_options example_context (seed 7))
    as (tables & d & s' & _ & Hs & _);
    [discriminate | exact example_options_distinct | exact example_options_time |].
  exists d, s'. split; [exact Hs|].
  exact (score_returns_one_entry_per_option (R := lcg_source) example_options
           example_context (seed 7) s' d example_options_distinct Hs).
Defined.

Lemma score_returns_only_without_zero_time_witness :
  exists d s',
    score (R := lcg_source) example_options example_context (seed 7) = (Ok d, s') /\
    example_options <> [] /\
    (forall o t, o ∈ example_options -> params o !! "time_taken" = Some t -> ~ t == 0) /\
    (forall o, o ∈ example_options -> exists ci, combinational_impact o = Ok ci).
Proof.
  destruct (score_ok (R := lcg_source) example_options example_context (seed 7))
    as (tables & d & s' & _ & Hs & _);
    [discriminate | exact example_options_distinct | exact example_options_time |].
  exists d, s'. split; [exact Hs|].
  exact (score_returns_only_without_zero_time (R := lcg_source) example_options
           example_context (seed 7) s' d example_options_distinct Hs).
Defined.

(** ** Explanation *)





(** ** The scripts *)

Lemma apply_constraints_all_rejected (options : list Option) :
  (forall o, o ∈ options -> 35 < params_get o "time_taken" 0) ->
  apply_constraints options = [].
Proof.
  intros Hall. unfold apply_constraints, apply_constraints_with.
  induction options as [|o l IH]; [done|].
  rewrite filter_cons_False.
  - apply IH. intros o' Ho'. apply Hall. by constructor.
  - unfold all_constraints, CONSTRAINTS. simpl. rewrite andb_true_r.
    assert (Hf : time_constraint o = false).
    { apply time_constraint_false. apply Hall. constructor. }
    rewrite Hf. discriminate.
Qed.

Section ScriptProperties.
Context `{R : RandomSource}.

(** A script all of whose options exceed the time threshold, or that has no
    option at all, prints nothing and ends with the [ValueError] of [score]
    on an empty list; no sample is drawn. *)
Theorem run_script_nothing_feasible (options : list Option) (context : Context)
    (s : rng) :
  (forall o, o ∈ options -> 35 < params_get o "time_taken" 0) ->
  apply_constraints options = [] /\
  run_script options context s = ([], Raise ValueError, s).
Proof.
  intros Hall. pose proof (apply_constraints_all_rejected options Hall) as Hnil.
  split; [done|]. unfold run_script. cbv zeta. rewrite Hnil. reflexivity.
Qed.

End ScriptProperties.



Lemma run_script_nothing_feasible_witness :
  apply_constraints [example_option 9 "Write novel" 40 0 5 5 5 9 ∅] = [] /\
  run_script (H := lcg_source) [example_option 9 "Write novel" 40 0 5 5 5 9 ∅]
    example_context (seed 3) = ([], Raise ValueError, seed 3).
Proof.
  apply (run_script_nothing_feasible (R := lcg_source)
           [example_option 9 "Write novel" 40 0 5 5 5 9 ∅] example_context (seed 3)).
  intros o Ho. apply list_elem_of_singleton in Ho as ->. reflexivity.
Defined.